(** * Threads: the client binding of the daemon's [threads] REST resource

    A shallow embedding of [src/modules/threads.ts].  Every method of the
    [Threads] class is an asynchronous function that talks to the daemon
    through the HTTP primitives of the [API] base class and, for [add],
    through the sibling [Schemas] client.  The embedding threads the state of
    the outside world and the list of calls made so far through a small
    state-and-exception monad, so that statements such as "exactly one PUT is
    issued" or "no DELETE is issued" are statements about the log. *)

From Stdlib Require Import ZArith Ascii.
From stdpp Require Import base option strings list gmap.

Open Scope Z_scope.
Open Scope string_scope.
Open Scope list_scope.

(** ** Data model *)

(** [ThreadType] and [ThreadSharing] are unions of string literals in the
    source; the strings themselves are given by [type_string] and
    [sharing_string]. *)
Inductive ThreadType := Private | ReadOnly | Public | Open.
Inductive ThreadSharing := NotShared | InviteOnly | Shared.

Definition type_string (t : ThreadType) : string :=
  match t with
  | Private => "private"
  | ReadOnly => "read_only"
  | Public => "public"
  | Open => "open"
  end.

Definition sharing_string (s : ThreadSharing) : string :=
  match s with
  | NotShared => "not_shared"
  | InviteOnly => "invite_only"
  | Shared => "shared"
  end.

(** Modelled from the spec: the [Thread], [ThreadList], [Contact] and
    [ContactList] types of [models/index], of which only the import is in the
    source.  [thread_key] and [thread_schema] are optional attributes and are
    [None] when the daemon leaves them out. *)
Record Thread := {
  thread_id : string;
  thread_name : string;
  thread_key : option string;
  thread_schema : option string;
  thread_type : ThreadType;
  thread_sharing : ThreadSharing;
  thread_whitelist : list string
}.

Record ThreadList := { items : list Thread }.

Record Contact := { contact_id : string; contact_address : string }.

Record ContactList := { contacts : list Contact }.

(** The value [schemas.add] resolves to; [add] reads only its [hash]. *)
Record FileIndex := { hash : string }.

#[global] Instance ThreadType_eq_dec : EqDecision ThreadType.
Proof. solve_decision. Defined.
#[global] Instance ThreadSharing_eq_dec : EqDecision ThreadSharing.
Proof. solve_decision. Defined.
#[global] Instance Thread_eq_dec : EqDecision Thread.
Proof. solve_decision. Defined.

(** ** Requests and responses *)

Inductive Method := GET | POST | PUT | DELETE.

(** What a [sendGet]/[sendPost]/[sendPut]/[sendDelete] call hands to the
    transport: the verb, the url relative to the daemon's base url, and the
    optional [args], [opts] and [data] parameters ([None] is JavaScript's
    [undefined]).  [opts] is an object used as a string-keyed map. *)
Record Request := {
  method : Method;
  url : string;
  args : option (list string);
  opts : option (gmap string string);
  data : option Thread
}.

Inductive Exn :=
  | TransportError (reason : string)
  | BodyError (reason : string).

Inductive Result (A : Type) :=
  | Ok (a : A)
  | Err (e : Exn).
Arguments Ok {A} a.
Arguments Err {A} e.

(** The body of a response as [response.json()] yields it. *)
Inductive Json :=
  | JThread (t : Thread)
  | JThreadList (l : ThreadList)
  | JContactList (c : ContactList).

(** Modelled from the spec: the [Response] the transport resolves to, with
    its [status] code and the outcome of [response.json()], which is an
    exception when the body does not parse. *)
Record Response := {
  status : Z;
  json : Result Json
}.

(** ** JavaScript operators used by the source *)

(** A string is falsy exactly when it is empty. *)
Definition truthy (s : string) : bool :=
  match s with
  | EmptyString => false
  | String _ _ => true
  end.

(** [x || d] for an optional string [x]: [undefined] and [''] give [d]. *)
Definition or_string (x : option string) (d : string) : string :=
  match x with
  | Some s => if truthy s then s else d
  | None => d
  end.

(** [x || d] for an optional value that is truthy whenever it is present
    (a non-empty string literal, an array). *)
Definition or_else {A : Type} (x : option A) (d : A) : A :=
  match x with
  | Some a => a
  | None => d
  end.

(** [Array.prototype.join]. *)
Fixpoint join (sep : string) (l : list string) : string :=
  match l with
  | [] => ""
  | [x] => x
  | x :: rest => x +:+ sep +:+ join sep rest
  end.

(** The [schema] parameter of [add] has type [string | object]. *)
Inductive SchemaArg (Schema : Type) :=
  | SchemaObject (o : Schema)
  | SchemaString (s : string).
Arguments SchemaObject {Schema} o.
Arguments SchemaString {Schema} s.

(** ** The client *)

Section Threads.

(** [World] is the state of everything outside the client (the daemon, the
    network); [Schema] is the type of structural schema objects. *)
Context {World Schema : Type}.

(** The HTTP transport base of [core/api], which this module only imports:
    a parameter.  It may answer a request with a response or raise, and it
    may change the world. *)
Variable transport : Request → World → Result Response * World.

(** The two operations of the sibling [Schemas] client that [add] calls,
    parameters as well.  [defaultByName] resolves to [undefined] ([None])
    when the name is not one of the default schemas. *)
Variable schemas_add : Schema → World → Result FileIndex * World.
Variable schemas_defaultByName :
  string → World → Result (option Schema) * World.

(** What the client did, in order. *)
Inductive Event :=
  | EHttp (r : Request)
  | ESchemasAdd (o : Schema)
  | ESchemasDefaultByName (name : string).

Record State := { world : World; log : list Event }.

(** An asynchronous computation: it runs from a state and either resolves
    to a value or rejects with an exception. *)
Definition M (A : Type) : Type := State → Result A * State.

#[local] Instance M_ret : MRet M := λ A a s, (Ok a, s).

#[local] Instance M_bind : MBind M := λ A B f m s,
  match m s with
  | (Ok a, s') => f a s'
  | (Err e, s') => (Err e, s')
  end.

Definition throw {A : Type} (e : Exn) : M A := λ s, (Err e, s).

(** Calling an asynchronous function without awaiting it: the call is
    made, its outcome (value or exception) is dropped. *)
Definition not_awaited {A : Type} (m : M A) : M unit :=
  λ s, (Ok tt, (m s).2).

Definition send (m : Method) (u : string) (a : option (list string))
    (o : option (gmap string string)) (d : option Thread) : M Response :=
  λ s,
    let req := {| method := m; url := u; args := a; opts := o; data := d |} in
    let '(r, w) := transport req (world s) in
    (r, {| world := w; log := log s ++ [EHttp req] |}).

Definition sendGet (u : string) : M Response :=
  send GET u None None None.
Definition sendDelete (u : string) : M Response :=
  send DELETE u None None None.
Definition sendPost (u : string) (a : option (list string))
    (o : option (gmap string string)) : M Response :=
  send POST u a o None.
Definition sendPut (u : string) (a : option (list string))
    (o : option (gmap string string)) (d : option Thread) : M Response :=
  send PUT u a o d.

Definition schemas_add_call (o : Schema) : M FileIndex :=
  λ s,
    let '(r, w) := schemas_add o (world s) in
    (r, {| world := w; log := log s ++ [ESchemasAdd o] |}).

Definition schemas_defaultByName_call (name : string) : M (option Schema) :=
  λ s,
    let '(r, w) := schemas_defaultByName name (world s) in
    (r, {| world := w; log := log s ++ [ESchemasDefaultByName name] |}).

(** [response.json() as Promise<Thread>] and its two siblings.  The types
    of the source promise the shape of the body; a body of another shape is
    outside them and is made an exception here. *)
Definition json_Thread (response : Response) : M Thread :=
  match json response with
  | Ok (JThread t) => mret t
  | Ok _ => throw (BodyError "not a Thread")
  | Err e => throw e
  end.

Definition json_ThreadList (response : Response) : M ThreadList :=
  match json response with
  | Ok (JThreadList l) => mret l
  | Ok _ => throw (BodyError "not a ThreadList")
  | Err e => throw e
  end.

Definition json_ContactList (response : Response) : M ContactList :=
  match json response with
  | Ok (JContactList c) => mret c
  | Ok _ => throw (BodyError "not a ContactList")
  | Err e => throw e
  end.

(** [Threads.add] *)
Definition add (name : string) (schema : option (SchemaArg Schema))
    (key : option string) (type : option ThreadType)
    (sharing : option ThreadSharing) (whitelist : option (list string))
    : M Thread :=
  targetSchema ←
    match schema with
    | Some (SchemaObject o) =>
        fileIndex ← schemas_add_call o;
        mret (Some (hash fileIndex))
    | Some (SchemaString s) =>
        if truthy s then
          known ← schemas_defaultByName_call s;
          match known with
          | Some k =>
              added ← schemas_add_call k;
              mret (Some (hash added))
          | None => mret (Some s)
          end
        else mret None
    | None => mret None
    end;
  response ←
    sendPost "threads" (Some [name])
      (Some {[ "schema" := or_string targetSchema "";
               "key" := or_string key "";
               "type" := or_else (type_string <$> type) "private";
               "sharing" := or_else (sharing_string <$> sharing) "not_shared";
               "whitelist" := join "," (or_else whitelist []) ]});
  json_Thread response.

(** [Threads.addOrUpdate] *)
Definition addOrUpdate (thread : string) (info : Thread) : M unit :=
  not_awaited (sendPut ("threads/" +:+ thread) None None (Some info)).

(** [Threads.get] *)
Definition get (thread : string) : M Thread :=
  response ← sendGet ("threads/" +:+ thread);
  json_Thread response.

(** [Threads.getByKey] *)
Definition getByKey (key : string) : M (option Thread) :=
  response ← sendGet "threads";
  threads ← json_ThreadList response;
  mret (List.find (λ thread, bool_decide (thread_key thread = Some key))
                  (items threads)).

(** [Threads.getByName] *)
Definition getByName (name : string) : M (list Thread) :=
  response ← sendGet "threads";
  threads ← json_ThreadList response;
  mret (filter (λ thread, thread_name thread = name) (items threads)).

(** [Threads.list] *)
Definition list_threads : M ThreadList :=
  response ← sendGet "threads";
  json_ThreadList response.

(** [Threads.remove] *)
Definition remove (thread : string) : M bool :=
  response ← sendDelete ("threads/" +:+ thread);
  mret (bool_decide (status response = 204)).

(** [Threads.removeByKey] *)
Definition removeByKey (key : string) : M bool :=
  thread ← getByKey key;
  match thread with
  | None => mret false
  | Some thread =>
      response ← sendDelete ("threads/" +:+ thread_id thread);
      mret (bool_decide (status response = 204))
  end.

(** [Threads.rename] *)
Definition rename (thread : string) (name : string) : M bool :=
  response ← sendPut ("threads/" +:+ thread +:+ "/name") None None None;
  mret (bool_decide (status response = 204)).

(** [Threads.peers].  The parameter is [None] when the caller leaves it
    out. *)
Definition peers (thread : option string) : M ContactList :=
  response ← sendGet ("threads/" +:+ or_string thread "default" +:+ "/peers");
  json_ContactList response.

End Threads.

(** ** Vocabulary of the statements *)

(** [t] is the first item of [l], in list order, whose key is [key]: it sits
    at index [i] and no item before it has that key. *)
Definition first_with_key (key : string) (l : list Thread) (i : nat)
    (t : Thread) : Prop :=
  l !! i = Some t ∧ thread_key t = Some key ∧
  ∀ j t', (j < i)%nat → l !! j = Some t' → thread_key t' ≠ Some key.

(** No item of [l] has the key [key]. *)
Definition no_key (key : string) (l : list Thread) : Prop :=
  ∀ t, t ∈ l → thread_key t ≠ Some key.

(** The HTTP requests among the events of a log, in order. *)
Definition requests {Schema : Type} (l : list (@Event Schema)) : list Request :=
  omap (λ e, match e with EHttp r => Some r | _ => None end) l.

(** The transport [t] with the status of every response rewritten by [f];
    bodies, exceptions and the effect on the world are those of [t]. *)
Definition map_status {World : Type} (f : Response → Z)
    (t : Request → World → Result Response * World)
    : Request → World → Result Response * World :=
  λ req w,
    match t req w with
    | (Ok r, w') => (Ok {| status := f r; json := json r |}, w')
    | (Err e, w') => (Err e, w')
    end.

(** [s] has no comma in it. *)
Fixpoint comma_free (s : string) : Prop :=
  match s with
  | EmptyString => True
  | String c s' => c ≠ ","%char ∧ comma_free s'
  end.

(** What follows an address in a joined whitelist: nothing, or a comma. *)
Definition after_address (s : string) : Prop :=
  s = "" ∨ ∃ s', s = String ","%char s'.

(** A list of addresses that are not empty and hold no comma. *)
Definition plain_addresses (l : list string) : Prop :=
  Forall (λ s, s ≠ "" ∧ comma_free s) l.

(** ** A small daemon to run the client against

    A world that is just the list of stored threads, with a transport that
    answers the requests of this module the way the daemon does: 200 with a
    body for reads, 204 for a successful DELETE or PUT, 404 for an unknown
    thread.  The schema client knows one default schema, ["media"]. *)

Definition respond (code : Z) (body : Result Json) (w : list Thread)
    : Result Response * list Thread :=
  (Ok {| status := code; json := body |}, w).

Definition no_body : Result Json := Err (BodyError "empty body").

Definition thread_at (prefix suffix u : string) (w : list Thread)
    : option Thread :=
  List.find (λ t, bool_decide (u = prefix +:+ thread_id t +:+ suffix)) w.

Definition sample_transport (req : Request) (w : list Thread)
    : Result Response * list Thread :=
  match method req with
  | GET =>
      if bool_decide (url req = "threads") then
        respond 200 (Ok (JThreadList {| items := w |})) w
      else if bool_decide (url req = "threads/default/peers") then
        respond 200 (Ok (JContactList {| contacts := [] |})) w
      else
        match thread_at "threads/" "" (url req) w with
        | Some t => respond 200 (Ok (JThread t)) w
        | None =>
            match thread_at "threads/" "/peers" (url req) w with
            | Some t => respond 200 (Ok (JContactList {| contacts := [] |})) w
            | None => respond 404 no_body w
            end
        end
  | DELETE =>
      match thread_at "threads/" "" (url req) w with
      | Some t =>
          respond 204 no_body
            (filter (λ t', thread_id t' ≠ thread_id t) w)
      | None => respond 404 no_body w
      end
  | PUT =>
      match data req with
      | Some info => respond 204 no_body (info :: w)
      | None =>
          match thread_at "threads/" "/name" (url req) w with
          | Some t => respond 204 no_body w
          | None => respond 404 no_body w
          end
      end
  | POST =>
      match args req, opts req with
      | Some [name], Some o =>
          let t := {| thread_id := "id-" +:+ name;
                      thread_name := name;
                      thread_key := o !! "key";
                      thread_schema := o !! "schema";
                      thread_type := Private;
                      thread_sharing := NotShared;
                      thread_whitelist := [] |} in
          respond 201 (Ok (JThread t)) (w ++ [t])
      | _, _ => (Err (TransportError "bad request"), w)
      end
  end.

Definition sample_schemas_add (o : string) (w : list Thread)
    : Result FileIndex * list Thread :=
  (Ok {| hash := "Qm" +:+ o |}, w).

Definition sample_schemas_defaultByName (name : string) (w : list Thread)
    : Result (option string) * list Thread :=
  (Ok (if bool_decide (name = "media") then Some "media-schema" else None), w).

Definition sample_thread (i n : string) (k : option string) : Thread :=
  {| thread_id := i; thread_name := n; thread_key := k;
     thread_schema := None; thread_type := Private;
     thread_sharing := NotShared; thread_whitelist := [] |}.

Definition sample_world : list Thread :=
  [ sample_thread "t1" "chat" (Some "k1");
    sample_thread "t2" "photos" (Some "k2");
    sample_thread "t3" "chat" (Some "k2");
    sample_thread "t4" "notes" None ].

Definition sample_state : @State (list Thread) string :=
  {| world := sample_world; log := [] |}.

(** A daemon that cannot be reached: every request raises. *)
Definition offline_transport (req : Request) (w : list Thread)
    : Result Response * list Thread :=
  (Err (TransportError "connection refused"), w).

(** A daemon that answers reads as the sample daemon does and refuses every
    other request. *)
Definition readonly_transport (req : Request) (w : list Thread)
    : Result Response * list Thread :=
  match method req with
  | GET => sample_transport req w
  | _ => (Err (TransportError "read only"), w)
  end.

(** A daemon whose bodies do not parse. *)
Definition garbled_transport (req : Request) (w : list Thread)
    : Result Response * list Thread :=
  respond 200 (Err (BodyError "unexpected token")) w.

(** A schema client that rejects every schema. *)
Definition rejecting_schemas_add (o : string) (w : list Thread)
    : Result FileIndex * list Thread :=
  (Err (TransportError "schema rejected"), w).

(** A schema client whose list of defaults cannot be read. *)
Definition failing_schemas_defaultByName (name : string) (w : list Thread)
    : Result (option string) * list Thread :=
  (Err (TransportError "no defaults"), w).

(** * Properties *)

Section Properties.

Context {World Schema : Type}.
Variable transport : Request → World → Result Response * World.
Variable schemas_add : Schema → World → Result FileIndex * World.
Variable schemas_defaultByName :
  string → World → Result (option Schema) * World.

#[local] Abbreviation State := (@State World Schema).
#[local] Abbreviation Event := (@Event Schema).

(** The request behind [sendGet u], [sendDelete u] and [sendPut u]. *)
#[local] Abbreviation bare m u :=
  {| method := m; url := u; args := None; opts := None; data := None |}.

(** Unfolds a method down to calls of the transport and of the schema
    client. *)
Ltac unfold_client :=
  unfold add, addOrUpdate, get, removeByKey, getByKey, getByName,
    list_threads, remove, rename, peers, not_awaited, sendGet, sendDelete,
    sendPost, sendPut, send, schemas_add_call, schemas_defaultByName_call,
    json_Thread, json_ThreadList, json_ContactList, throw, mbind, M_bind,
    mret, M_ret;
  simpl.

(** Case analysis on what an external call answers. *)
Ltac answer f :=
  match goal with
  | |- context [f ?x ?w] => destruct (f x w) as [[?|?] ?]; simpl
  end.

(** Closes a goal about the log of a request whose response is only decoded
    afterwards: the log is the same whatever the transport answers and
    whatever the body holds. *)
Ltac same_log := first [reflexivity | by rewrite <- !app_assoc].

Ltac sent f :=
  answer f; [|same_log];
  destruct (json _) as [[]|]; simpl; same_log.

(** *** Lists: first match and greatest matching sublist *)

Lemma find_first {A : Type} (f : A → bool) (l : list A) :
  match List.find f l with
  | Some x =>
      ∃ i, l !! i = Some x ∧ f x = true ∧
           ∀ j y, (j < i)%nat → l !! j = Some y → f y = false
  | None => ∀ x, x ∈ l → f x = false
  end.
Proof.
  induction l as [|a l IH]; simpl.
  - intros x Hx. by apply not_elem_of_nil in Hx.
  - destruct (f a) eqn:Hfa.
    + exists 0%nat. repeat split; [done|]. intros j y Hj. lia.
    + destruct (List.find f l) as [x|].
      * destruct IH as (i & Hi & Hfx & Hbefore).
        exists (S i). repeat split; [done..|].
        intros [|j] y Hj Hy; simpl in Hy.
        -- congruence.
        -- apply (Hbefore j); [lia|done].
      * intros x [->|Hx]%elem_of_cons; [done|auto].
Qed.

Lemma find_at_first {A : Type} (f : A → bool) (l : list A) (i : nat) (x : A) :
  l !! i = Some x → f x = true →
  (∀ j y, (j < i)%nat → l !! j = Some y → f y = false) →
  List.find f l = Some x.
Proof.
  revert i. induction l as [|a l IH]; intros [|i] Hi Hfx Hbefore;
    simpl in *; try done.
  - injection Hi as ->. by rewrite Hfx.
  - rewrite (Hbefore 0%nat a) by (done || lia).
    apply (IH i); [done..|].
    intros j y Hj Hy. apply (Hbefore (S j)); [lia|done].
Qed.

Lemma filter_greatest {A : Type} (P : A → Prop) `{!∀ x, Decision (P x)}
    (l k : list A) :
  k `sublist_of` l → Forall P k → k `sublist_of` filter P l.
Proof.
  induction 1 as [|x k l Hkl IH|x k l Hkl IH]; intros HP.
  - constructor.
  - apply Forall_cons in HP as [HPx HPk].
    rewrite filter_cons_True by done. constructor. auto.
  - rewrite filter_cons. case_decide; [apply sublist_cons|]; auto.
Qed.

Lemma key_test (key : string) (t : Thread) :
  bool_decide (thread_key t = Some key) = false ↔ thread_key t ≠ Some key.
Proof. by rewrite bool_decide_eq_false. Qed.

Lemma truthy_nonempty (s : string) : s ≠ "" → truthy s = true.
Proof. by destruct s. Qed.

(** *** [remove] and [removeByKey] *)

Lemma remove_log (thread : string) (st : State) :
  log (remove transport thread st).2
    = log st ++ [EHttp (bare DELETE ("threads/" +:+ thread))].
Proof. unfold_client. answer transport; reflexivity. Qed.

Lemma remove_status (thread : string) (st : State) (r : Response) (w : World) :
  transport (bare DELETE ("threads/" +:+ thread)) (world st) = (Ok r, w) →
  (remove transport thread st).1 = Ok (bool_decide (status r = 204)).
Proof. intros Hdel. unfold_client. by rewrite Hdel. Qed.

(** The methods have no handler of their own: what the transport raises is
    what the method raises. *)
Lemma remove_raises (thread : string) (st : State) (e : Exn) (w : World) :
  transport (bare DELETE ("threads/" +:+ thread)) (world st) = (Err e, w) →
  (remove transport thread st).1 = Err e.
Proof. intros Hdel. unfold_client. by rewrite Hdel. Qed.

Lemma rename_raises (thread name : string) (st : State) (e : Exn) (w : World) :
  transport (bare PUT ("threads/" +:+ thread +:+ "/name")) (world st)
    = (Err e, w) →
  (rename transport thread name st).1 = Err e.
Proof. intros Hput. unfold_client. by rewrite Hput. Qed.

(** Once the list is in, [removeByKey] either stops or goes on as [remove]
    does on the id of the first match. *)
Lemma removeByKey_absent (key : string) (st : State) (r : Response)
    (w : World) (threads : ThreadList) :
  transport (bare GET "threads") (world st) = (Ok r, w) →
  json r = Ok (JThreadList threads) →
  no_key key (items threads) →
  removeByKey transport key st
    = (Ok false,
       {| world := w; log := log st ++ [EHttp (bare GET "threads")] |}).
Proof.
  intros Hget Hjson Hnone.
  unfold_client. rewrite Hget. simpl. rewrite Hjson. simpl.
  pose proof (find_first
    (λ thread, bool_decide (thread_key thread = Some key)) (items threads))
    as Hfind.
  destruct (List.find _ _) as [t|]; [|done].
  destruct Hfind as (i & Hi & Hkey & _).
  apply bool_decide_eq_true in Hkey.
  exfalso. apply (Hnone t); [|done]. by eapply list_elem_of_lookup_2.
Qed.

Lemma removeByKey_present (key : string) (st : State) (r : Response)
    (w : World) (threads : ThreadList) (i : nat) (t : Thread) :
  transport (bare GET "threads") (world st) = (Ok r, w) →
  json r = Ok (JThreadList threads) →
  first_with_key key (items threads) i t →
  removeByKey transport key st
    = remove transport (thread_id t)
        {| world := w; log := log st ++ [EHttp (bare GET "threads")] |}.
Proof.
  intros Hget Hjson (Hi & Hkey & Hbefore).
  unfold_client. rewrite Hget. simpl. rewrite Hjson. simpl.
  rewrite (find_at_first _ _ i t); [done..|by apply bool_decide_eq_true|].
  intros j t' Hj Ht'. apply key_test. eauto.
Qed.

(** C1: [rename] issues a single PUT to [threads/{thread}/name] with no
    args, no opts and no body, and the whole outcome of the call is the
    same for any two values of the [name] argument: the new name is never
    transmitted. *)
Theorem rename_never_sends_name (thread name name' : string) (st : State) :
  log (rename transport thread name st).2
    = log st ++ [EHttp (bare PUT ("threads/" +:+ thread +:+ "/name"))]
  ∧ rename transport thread name st = rename transport thread name' st.
Proof.
  split; [|reflexivity].
  unfold_client. answer transport; reflexivity.
Qed.

(** C3: [add(name)] with every optional argument left out makes no call to
    the schema client and issues one POST to [threads], with [name] as the
    only arg and the opts [schema = ''], [key = ''], [type = 'private'],
    [sharing = 'not_shared'], [whitelist = '']. *)
Theorem add_defaults (name : string) (st : State) :
  log (add transport schemas_add schemas_defaultByName
         name None None None None None st).2
    = log st ++
      [EHttp {| method := POST; url := "threads"; args := Some [name];
                opts := Some {[ "schema" := ""; "key" := "";
                                "type" := "private";
                                "sharing" := "not_shared";
                                "whitelist" := "" ]};
                data := None |}].
Proof.
  unfold_client. sent transport.
Qed.

(** C8: [addOrUpdate(threadId, info)] issues exactly one PUT to
    [threads/{threadId}] with [info] as the body, and resolves to the same
    empty value whatever the transport answers or raises. *)
Theorem addOrUpdate_fire_and_forget (thread : string) (info : Thread)
    (st : State) :
  log (addOrUpdate transport thread info st).2
    = log st ++
      [EHttp {| method := PUT; url := "threads/" +:+ thread; args := None;
                opts := None; data := Some info |}]
  ∧ (addOrUpdate transport thread info st).1 = Ok tt.
Proof.
  unfold_client. split; [|reflexivity].
  answer transport; reflexivity.
Qed.

(** C9: [peers] with a falsy argument (left out, or the empty string) issues
    its GET to [threads/default/peers]; with a truthy argument it issues it
    to [threads/{thread}/peers]. *)
Theorem peers_default_thread (thread : option string) (st : State) :
  (thread = None ∨ thread = Some "" →
     log (peers transport thread st).2
       = log st ++ [EHttp (bare GET "threads/default/peers")])
  ∧ (∀ s, thread = Some s → s ≠ "" →
     log (peers transport thread st).2
       = log st ++ [EHttp (bare GET ("threads/" +:+ s +:+ "/peers"))]).
Proof.
  split.
  - intros [-> | ->]; unfold_client; sent transport.
  - intros s -> Hs. destruct s as [|c s]; [done|].
    unfold_client. sent transport.
Qed.

(** C10: [add(name, '')] is [add(name)]: with the empty string as schema the
    call has the very outcome of the call with the schema left out, whatever
    the other arguments; neither [schemas.add] nor [schemas.defaultByName] is
    called, and the one event is the POST with [schema = '']. *)
Theorem add_empty_schema_is_omitted (name : string) (key : option string)
    (type : option ThreadType) (sharing : option ThreadSharing)
    (whitelist : option (list string)) (st : State) :
  add transport schemas_add schemas_defaultByName
      name (Some (SchemaString "")) key type sharing whitelist st
    = add transport schemas_add schemas_defaultByName
        name None key type sharing whitelist st
  ∧ ∃ o, log (add transport schemas_add schemas_defaultByName
                name (Some (SchemaString "")) key type sharing whitelist st).2
           = log st ++
             [EHttp {| method := POST; url := "threads"; args := Some [name];
                       opts := Some o; data := None |}]
         ∧ o !! "schema" = Some "".
Proof.
  split; [reflexivity|].
  eexists. split.
  - unfold_client. sent transport.
  - reflexivity.
Qed.

(** C6: when GET [threads] answers with a thread list, [getByKey(key)]
    resolves to the first item, in list order, whose key is [key], and to
    [undefined] when no item has that key. *)
Theorem getByKey_first_match (key : string) (st : State) (r : Response)
    (w : World) (threads : ThreadList) :
  transport (bare GET "threads") (world st) = (Ok r, w) →
  json r = Ok (JThreadList threads) →
  ∃ found, (getByKey transport key st).1 = Ok found ∧
    match found with
    | Some t => ∃ i, first_with_key key (items threads) i t
    | None => no_key key (items threads)
    end.
Proof.
  intros Hget Hjson. unfold_client. rewrite Hget. simpl. rewrite Hjson. simpl.
  eexists. split; [reflexivity|].
  pose proof (find_first
    (λ thread, bool_decide (thread_key thread = Some key)) (items threads))
    as Hfind.
  destruct (List.find _ _) as [t|].
  - destruct Hfind as (i & Hi & Hkey & Hbefore). exists i.
    split; [done|]. split; [by apply bool_decide_eq_true in Hkey|].
    intros j t' Hj Ht'. apply key_test. eauto.
  - intros t Ht. apply key_test. auto.
Qed.

(** C7: when GET [threads] answers with a thread list, [getByName(name)]
    resolves to exactly the items whose name is [name], in the order of the
    list: a sublist of the items, all of that name, that contains every
    other such sublist; it is empty when no item has that name. *)
Theorem getByName_all_matches (name : string) (st : State) (r : Response)
    (w : World) (threads : ThreadList) :
  transport (bare GET "threads") (world st) = (Ok r, w) →
  json r = Ok (JThreadList threads) →
  ∃ found, (getByName transport name st).1 = Ok found ∧
    found `sublist_of` items threads ∧
    (∀ t, t ∈ found ↔ t ∈ items threads ∧ thread_name t = name) ∧
    (∀ l, l `sublist_of` items threads →
          Forall (λ t, thread_name t = name) l → l `sublist_of` found) ∧
    ((∀ t, t ∈ items threads → thread_name t ≠ name) → found = []).
Proof.
  intros Hget Hjson. unfold_client. rewrite Hget. simpl. rewrite Hjson. simpl.
  eexists. split; [reflexivity|]. split; [apply sublist_filter|].
  split; [|split].
  - intros t. rewrite list_elem_of_filter. split; intros [? ?]; done.
  - intros l. apply filter_greatest.
  - intros Hnone.
    destruct (filter _ _) as [|t l] eqn:Hf; [done|].
    assert (t ∈ filter (λ t, thread_name t = name) (items threads)) as Ht
      by (rewrite Hf; left).
    apply list_elem_of_filter in Ht as [Hname Hin]. by destruct (Hnone t).
Qed.

(** C5: when the thread list GET [threads] answers with has no item of key
    [key], [removeByKey(key)] resolves to [false] and the GET is the only
    request it issues; otherwise it issues, after the GET, exactly one
    DELETE, to [threads/{id}] with the id of the first item of that key. *)
Theorem removeByKey_deletes_first_match (key : string) (st : State)
    (r : Response) (w : World) (threads : ThreadList) :
  transport (bare GET "threads") (world st) = (Ok r, w) →
  json r = Ok (JThreadList threads) →
  (no_key key (items threads) →
     removeByKey transport key st
       = (Ok false,
          {| world := w; log := log st ++ [EHttp (bare GET "threads")] |}))
  ∧ (∀ i t, first_with_key key (items threads) i t →
     log (removeByKey transport key st).2
       = log st ++ [EHttp (bare GET "threads");
                    EHttp (bare DELETE ("threads/" +:+ thread_id t))]).
Proof.
  intros Hget Hjson. split.
  - by apply (removeByKey_absent key st r).
  - intros i t Hfirst.
    rewrite (removeByKey_present key st r w threads i t) by done.
    rewrite remove_log. simpl. by rewrite <- app_assoc.
Qed.

(** C4: [remove], [removeByKey] and [rename] resolve to a boolean that is
    [true] if and only if the status of the response to their DELETE or PUT
    is 204; a response with any other status (404 and 500 among them) makes
    them resolve to [false], it does not make them raise.  [removeByKey]
    issues its DELETE for the first item of the given key, and resolves to
    [false] when there is none. *)
Theorem status_204_is_success :
  (∀ (thread : string) (st : State) r w,
     transport (bare DELETE ("threads/" +:+ thread)) (world st) = (Ok r, w) →
     ∃ b, (remove transport thread st).1 = Ok b ∧ (b = true ↔ status r = 204))
  ∧ (∀ (thread name : string) (st : State) r w,
     transport (bare PUT ("threads/" +:+ thread +:+ "/name")) (world st)
       = (Ok r, w) →
     ∃ b, (rename transport thread name st).1 = Ok b ∧
          (b = true ↔ status r = 204))
  ∧ (∀ (key : string) (st : State) r w threads,
     transport (bare GET "threads") (world st) = (Ok r, w) →
     json r = Ok (JThreadList threads) →
     (no_key key (items threads) →
        (removeByKey transport key st).1 = Ok false)
     ∧ (∀ i t r' w',
        first_with_key key (items threads) i t →
        transport (bare DELETE ("threads/" +:+ thread_id t)) w = (Ok r', w') →
        ∃ b, (removeByKey transport key st).1 = Ok b ∧
             (b = true ↔ status r' = 204))).
Proof.
  split; [|split].
  - intros thread st r w Hdel. unfold_client. rewrite Hdel. simpl.
    eexists. split; [reflexivity|]. apply bool_decide_eq_true.
  - intros thread name st r w Hput. unfold_client. rewrite Hput. simpl.
    eexists. split; [reflexivity|]. apply bool_decide_eq_true.
  - intros key st r w threads Hget Hjson. split.
    + intros Hnone.
      by rewrite (removeByKey_absent key st r w threads).
    + intros i t r' w' Hfirst Hdel.
      rewrite (removeByKey_present key st r w threads i t) by done.
      rewrite (remove_status _ _ r' w') by done.
      eexists. split; [reflexivity|]. apply bool_decide_eq_true.
Qed.

(** C2: the schema that [add] submits is resolved three ways.  An object is
    submitted once through [schemas.add] and the hash that comes back is the
    [schema] opt of the POST.  A (non-empty) string that
    [schemas.defaultByName] knows has that default added through
    [schemas.add], and the hash that comes back is the [schema] opt.  A
    string that [schemas.defaultByName] does not know is the [schema] opt as
    it is, whatever its length or form, and nothing is added. *)
Theorem add_resolves_schema (name : string) (key : option string)
    (type : option ThreadType) (sharing : option ThreadSharing)
    (whitelist : option (list string)) (st : State) :
  (∀ o fileIndex w,
     schemas_add o (world st) = (Ok fileIndex, w) →
     ∃ m, log (add transport schemas_add schemas_defaultByName name
                 (Some (SchemaObject o)) key type sharing whitelist st).2
            = log st ++
              [ESchemasAdd o;
               EHttp {| method := POST; url := "threads"; args := Some [name];
                        opts := Some m; data := None |}]
          ∧ m !! "schema" = Some (hash fileIndex))
  ∧ (∀ s known added w w',
     s ≠ "" →
     schemas_defaultByName s (world st) = (Ok (Some known), w) →
     schemas_add known w = (Ok added, w') →
     ∃ m, log (add transport schemas_add schemas_defaultByName name
                 (Some (SchemaString s)) key type sharing whitelist st).2
            = log st ++
              [ESchemasDefaultByName s; ESchemasAdd known;
               EHttp {| method := POST; url := "threads"; args := Some [name];
                        opts := Some m; data := None |}]
          ∧ m !! "schema" = Some (hash added))
  ∧ (∀ s w,
     schemas_defaultByName s (world st) = (Ok None, w) →
     ∃ m, log (add transport schemas_add schemas_defaultByName name
                 (Some (SchemaString s)) key type sharing whitelist st).2
            = log st ++
              (if truthy s then [ESchemasDefaultByName s] else []) ++
              [EHttp {| method := POST; url := "threads"; args := Some [name];
                        opts := Some m; data := None |}]
          ∧ m !! "schema" = Some s).
Proof.
  split; [|split].
  - intros o fileIndex w Hadd. eexists. split.
    + unfold_client. rewrite Hadd. simpl. sent transport.
    + by destruct (hash fileIndex).
  - intros s known added w w' Hs Hknown Hadd. eexists. split.
    + unfold_client. rewrite (truthy_nonempty s Hs), Hknown. simpl.
      rewrite Hadd. simpl. sent transport.
    + by destruct (hash added).
  - intros s w Hunknown. destruct s as [|c s].
    + eexists. split.
      * unfold_client. sent transport.
      * done.
    + eexists. split.
      * unfold_client. rewrite Hunknown. simpl. sent transport.
      * done.
Qed.

(** ** Further properties of the methods *)

(** *** Requests issued *)

(** [get], [list], [getByKey], [getByName] and [remove] issue exactly one
    request each, whatever the transport answers or raises and whatever the
    body holds: nothing is retried.  [removeByKey] issues the GET of the list
    and after it at most one DELETE. *)
Theorem one_request_each (st : State) :
  (∀ thread,
     log (get transport thread st).2
       = log st ++ [EHttp (bare GET ("threads/" +:+ thread))])
  ∧ log (list_threads transport st).2
      = log st ++ [EHttp (bare GET "threads")]
  ∧ (∀ key,
     log (getByKey transport key st).2
       = log st ++ [EHttp (bare GET "threads")])
  ∧ (∀ name,
     log (getByName transport name st).2
       = log st ++ [EHttp (bare GET "threads")])
  ∧ (∀ thread,
     log (remove transport thread st).2
       = log st ++ [EHttp (bare DELETE ("threads/" +:+ thread))])
  ∧ (∀ key, ∃ rest,
     log (removeByKey transport key st).2
       = log st ++ EHttp (bare GET "threads") :: rest
     ∧ (rest = [] ∨
        ∃ t, rest = [EHttp (bare DELETE ("threads/" +:+ thread_id t))])).
Proof.
  repeat split.
  - intros thread. unfold_client. sent transport.
  - unfold_client. sent transport.
  - intros key. unfold_client. sent transport.
  - intros name. unfold_client. sent transport.
  - intros thread. apply remove_log.
  - intros key. unfold_client.
    answer transport; [|by exists []; split; [|left]].
    destruct (json _) as [[| threads |]|]; simpl;
      try by (exists []; split; [|left]).
    destruct (List.find _ _) as [t|]; simpl; [|by exists []; split; [|left]].
    eexists. split; [|right; by exists t].
    answer transport; by rewrite <- app_assoc.
Qed.

(** *** Failures *)


(** When the schema cannot be resolved, [add] creates no thread: an
    exception raised by [schemas.add] or by [schemas.defaultByName] is the
    exception of [add], and no HTTP request has been issued. *)
Theorem add_schema_failure_aborts (name : string) (key : option string)
    (type : option ThreadType) (sharing : option ThreadSharing)
    (whitelist : option (list string)) (st : State) (e : Exn) :
  (∀ o w,
     schemas_add o (world st) = (Err e, w) →
     add transport schemas_add schemas_defaultByName name
         (Some (SchemaObject o)) key type sharing whitelist st
       = (Err e, {| world := w; log := log st ++ [ESchemasAdd o] |}))
  ∧ (∀ s w,
     s ≠ "" →
     schemas_defaultByName s (world st) = (Err e, w) →
     add transport schemas_add schemas_defaultByName name
         (Some (SchemaString s)) key type sharing whitelist st
       = (Err e,
          {| world := w; log := log st ++ [ESchemasDefaultByName s] |}))
  ∧ (∀ s known w w',
     s ≠ "" →
     schemas_defaultByName s (world st) = (Ok (Some known), w) →
     schemas_add known w = (Err e, w') →
     add transport schemas_add schemas_defaultByName name
         (Some (SchemaString s)) key type sharing whitelist st
       = (Err e,
          {| world := w';
             log := log st ++ [ESchemasDefaultByName s; ESchemasAdd known] |})).
Proof.
  split; [|split].
  - intros o w Hadd. unfold_client. by rewrite Hadd.
  - intros s w Hs Hdefault. unfold_client.
    by rewrite (truthy_nonempty s Hs), Hdefault.
  - intros s known w w' Hs Hdefault Hadd. unfold_client.
    rewrite (truthy_nonempty s Hs), Hdefault. simpl. rewrite Hadd. simpl.
    by rewrite <- app_assoc.
Qed.

(** *** What the methods do not read *)

(** [get], [list], [getByKey], [getByName], [peers] and [add] never read the
    status of the response: rewriting the status of every response of the
    transport changes neither their outcome nor the world nor the log.  A
    response with an error status and a body that parses is a success to
    them. *)
Theorem status_is_not_read (f : Response → Z) (st : State) :
  (∀ thread,
     get (map_status f transport) thread st = get transport thread st)
  ∧ list_threads (map_status f transport) st = list_threads transport st
  ∧ (∀ key,
     getByKey (map_status f transport) key st = getByKey transport key st)
  ∧ (∀ name,
     getByName (map_status f transport) name st
       = getByName transport name st)
  ∧ (∀ thread,
     peers (map_status f transport) thread st = peers transport thread st)
  ∧ (∀ name schema key type sharing whitelist,
     add (map_status f transport) schemas_add schemas_defaultByName
         name schema key type sharing whitelist st
       = add transport schemas_add schemas_defaultByName
           name schema key type sharing whitelist st).
Proof.
  repeat split; intros; unfold_client; unfold map_status.
  1-5: by answer transport.
  destruct schema as [[o|s]|]; simpl.
  - answer schemas_add; [|done]. by answer transport.
  - destruct (truthy s); simpl; [|by answer transport].
    answer schemas_defaultByName; [|done].
    match goal with known : option Schema |- _ => destruct known; simpl end.
    + answer schemas_add; [|done]. by answer transport.
    + by answer transport.
  - by answer transport.
Qed.

(** *** How the methods compose *)


(** *** Empty arguments of [add] *)

(** An empty [key], an empty [whitelist] and a [whitelist] that holds only
    the empty string are to [add] what the argument left out is: the call
    has the same outcome, and the daemon cannot tell them apart. *)
Theorem add_empty_key_and_whitelist (name : string)
    (schema : option (SchemaArg Schema)) (key : option string)
    (type : option ThreadType) (sharing : option ThreadSharing)
    (whitelist : option (list string)) (st : State) :
  add transport schemas_add schemas_defaultByName
      name schema (Some "") type sharing whitelist st
    = add transport schemas_add schemas_defaultByName
        name schema None type sharing whitelist st
  ∧ add transport schemas_add schemas_defaultByName
      name schema key type sharing (Some []) st
    = add transport schemas_add schemas_defaultByName
        name schema key type sharing None st
  ∧ add transport schemas_add schemas_defaultByName
      name schema key type sharing (Some [""]) st
    = add transport schemas_add schemas_defaultByName
        name schema key type sharing None st.
Proof. repeat split. Qed.

(** *** The requests of [add] *)

(** Whatever its arguments and whatever the schema client and the transport
    answer, [add] issues no HTTP request but one POST to [threads], with
    [name] as its only arg and exactly the opts [schema], [key], [type],
    [sharing] and [whitelist]; when it has issued none, it has rejected. *)
Theorem add_posts_at_most_once (name : string)
    (schema : option (SchemaArg Schema)) (key : option string)
    (type : option ThreadType) (sharing : option ThreadSharing)
    (whitelist : option (list string)) (st : State) :
  ∃ events,
    log (add transport schemas_add schemas_defaultByName
           name schema key type sharing whitelist st).2 = log st ++ events
    ∧ ((requests events = []
        ∧ ∃ e, (add transport schemas_add schemas_defaultByName
                  name schema key type sharing whitelist st).1 = Err e)
       ∨ ∃ m,
           requests events
             = [{| method := POST; url := "threads"; args := Some [name];
                   opts := Some m; data := None |}]
           ∧ dom m = {[ "schema"; "key"; "type"; "sharing"; "whitelist" ]}).
Proof.
  assert (∀ a b c d e : string,
    dom ({[ "schema" := a; "key" := b; "type" := c; "sharing" := d;
            "whitelist" := e ]} : gmap string string)
      = {[ "schema"; "key"; "type"; "sharing"; "whitelist" ]}) as Hdom.
  { intros. rewrite !dom_insert_L, dom_singleton_L. set_solver. }
  assert (∀ (l : list Event) m w,
    ∃ events,
      log (M_bind _ _ json_Thread
             (sendPost transport "threads" (Some [name]) (Some m))
             {| world := w; log := l |}).2 = l ++ events
      ∧ requests events
          = [{| method := POST; url := "threads"; args := Some [name];
                opts := Some m; data := None |}]) as Hpost.
  { intros l m w. eexists. split.
    - unfold_client. sent transport.
    - reflexivity. }
  assert (∀ (before : list Event) m w,
    requests before = [] →
    ∃ events,
      log (M_bind _ _ json_Thread
             (sendPost transport "threads" (Some [name]) (Some m))
             {| world := w; log := log st ++ before |}).2 = log st ++ events
      ∧ requests events
          = [{| method := POST; url := "threads"; args := Some [name];
                opts := Some m; data := None |}]) as Hafter.
  { intros before m w Hnone.
    destruct (Hpost (log st ++ before) m w) as (events & Hlog & Hreq).
    exists (before ++ events). split; [by rewrite Hlog, app_assoc|].
    unfold requests in *. by rewrite omap_app, Hnone. }
  destruct st as [w0 l0]. simpl in Hafter.
  destruct schema as [[o|s]|]; [| |unfold add, mbind; unfold M_bind at 1].
  - unfold_client. answer schemas_add.
    + edestruct (Hafter [ESchemasAdd o]) as (events & Hlog & Hreq); [done|].
      exists events. split; [exact Hlog|]. right. eexists.
      split; [exact Hreq|apply Hdom].
    + exists [ESchemasAdd o]. split; [done|]. left. split; [done|by eexists].
  - destruct (truthy s) eqn:Hs;
      [|unfold add, mbind; unfold M_bind at 1; rewrite Hs].
    + unfold_client. rewrite Hs. simpl. answer schemas_defaultByName.
      * match goal with answer : option Schema |- _ =>
          destruct answer as [known|]; simpl end.
        -- answer schemas_add.
           ++ edestruct (Hafter [ESchemasDefaultByName s; ESchemasAdd known])
                as (events & Hlog & Hreq); [done|].
              rewrite <- (app_assoc l0 [_] [_]).
              exists events. split; [exact Hlog|]. right. eexists.
              split; [exact Hreq|apply Hdom].
           ++ exists [ESchemasDefaultByName s; ESchemasAdd known].
              split; [by rewrite <- app_assoc|].
              left. split; [done|by eexists].
        -- edestruct (Hafter [ESchemasDefaultByName s])
             as (events & Hlog & Hreq); [done|].
           exists events. split; [exact Hlog|]. right. eexists.
           split; [exact Hreq|apply Hdom].
      * exists [ESchemasDefaultByName s]. split; [done|].
        left. split; [done|by eexists].
    + edestruct (Hpost l0) as (events & Hlog & Hreq).
      exists events. split; [exact Hlog|]. right. eexists.
      split; [exact Hreq|apply Hdom].
  - edestruct (Hpost l0) as (events & Hlog & Hreq).
    exists events. split; [exact Hlog|]. right. eexists.
    split; [exact Hreq|apply Hdom].
Qed.

(** *** Failures of [removeByKey] *)

(** [removeByKey] resolves to [false] only for a key that is absent or a
    DELETE that is not answered 204.  When the list cannot be fetched or its
    body does not parse it rejects, and no DELETE is issued; when the DELETE
    raises it rejects as well. *)
Theorem removeByKey_failures (key : string) (st : State) (e : Exn) :
  (∀ w,
     transport (bare GET "threads") (world st) = (Err e, w) →
     removeByKey transport key st
       = (Err e,
          {| world := w; log := log st ++ [EHttp (bare GET "threads")] |}))
  ∧ (∀ r w,
     transport (bare GET "threads") (world st) = (Ok r, w) →
     json r = Err e →
     removeByKey transport key st
       = (Err e,
          {| world := w; log := log st ++ [EHttp (bare GET "threads")] |}))
  ∧ (∀ r w threads i t w',
     transport (bare GET "threads") (world st) = (Ok r, w) →
     json r = Ok (JThreadList threads) →
     first_with_key key (items threads) i t →
     transport (bare DELETE ("threads/" +:+ thread_id t)) w = (Err e, w') →
     removeByKey transport key st
       = (Err e,
          {| world := w';
             log := log st ++
                    [EHttp (bare GET "threads");
                     EHttp (bare DELETE ("threads/" +:+ thread_id t))] |})).
Proof.
  split; [|split].
  - intros w Hget. unfold_client. by rewrite Hget.
  - intros r w Hget Hjson. unfold_client. rewrite Hget. simpl.
    by rewrite Hjson.
  - intros r w threads i t w' Hget Hjson Hfirst Hdel.
    rewrite (removeByKey_present key st r w threads i t) by done.
    unfold_client. rewrite Hdel. simpl. by rewrite <- app_assoc.
Qed.

(** *** Strings: paths and the whitelist *)

Lemma string_app_cons (c : ascii) (a s : string) :
  String c a +:+ s = String c (a +:+ s).
Proof. reflexivity. Qed.

Lemma string_app_length (a s : string) :
  String.length (a +:+ s) = (String.length a + String.length s)%nat.
Proof.
  induction a as [|c a IH]; [done|].
  rewrite string_app_cons. simpl. by rewrite IH.
Qed.

Lemma string_app_inj_r (s a b : string) : a +:+ s = b +:+ s → a = b.
Proof.
  revert b. induction a as [|c a IH]; intros [|d b] Heq; [done| | |].
  - apply (f_equal String.length) in Heq.
    rewrite !string_app_length in Heq. simpl in Heq. lia.
  - apply (f_equal String.length) in Heq.
    rewrite !string_app_length in Heq. simpl in Heq. lia.
  - rewrite !string_app_cons in Heq. injection Heq as -> Heq.
    f_equal. by apply IH.
Qed.

Lemma comma_free_prefix (x y s t : string) :
  comma_free x → comma_free y → after_address s → after_address t →
  x +:+ s = y +:+ t → x = y ∧ s = t.
Proof.
  revert y. induction x as [|c x IH]; intros [|d y] Hx Hy Hs Ht Heq.
  - done.
  - change ("" +:+ s) with s in Heq. rewrite string_app_cons in Heq.
    destruct Hy as [Hd _]. destruct Hs as [->|[s' ->]]; [done|].
    injection Heq as <- _. done.
  - change ("" +:+ t) with t in Heq. rewrite string_app_cons in Heq.
    destruct Hx as [Hc _]. destruct Ht as [->|[t' ->]]; [done|].
    injection Heq as -> _. done.
  - rewrite !string_app_cons in Heq. injection Heq as -> Heq.
    destruct Hx as [_ Hx], Hy as [_ Hy].
    destruct (IH y Hx Hy Hs Ht Heq) as [-> ->]. done.
Qed.

Lemma join_head (x : string) (rest : list string) :
  ∃ s, join "," (x :: rest) = x +:+ s ∧ after_address s ∧
       (rest = [] → s = "") ∧
       (∀ y rest', rest = y :: rest' →
                   s = String ","%char (join "," (y :: rest'))).
Proof.
  destruct rest as [|y rest'].
  - exists "". split; [|split; [by left|split; [done|done]]].
    simpl. induction x as [|c x IH]; [done|].
    rewrite string_app_cons. by rewrite <- IH.
  - exists (String ","%char (join "," (y :: rest'))).
    split; [done|]. split; [right; by eexists|]. split; [done|].
    by intros ? ? [= <- <-].
Qed.

(** The comma-joined [whitelist] opt that [add] sends loses nothing when the
    addresses are not empty and hold no comma: two such whitelists with the
    same join are the same list. *)
Theorem whitelist_join_injective (l1 l2 : list string) :
  plain_addresses l1 → plain_addresses l2 →
  join "," l1 = join "," l2 → l1 = l2.
Proof.
  assert (∀ y r, plain_addresses (y :: r) → join "," (y :: r) ≠ "") as Hne.
  { intros y r [[Hy _] _]%Forall_cons Hj.
    destruct (join_head y r) as (s & Hs & _). rewrite Hs in Hj.
    by destruct y. }
  revert l2. induction l1 as [|x r1 IH]; intros [|y r2] H1 H2 Heq.
  - done.
  - by destruct (Hne y r2).
  - by destruct (Hne x r1).
  - destruct (join_head x r1) as (s & Hs & Has & Hs_nil & Hs_cons).
    destruct (join_head y r2) as (t & Ht & Hat & Ht_nil & Ht_cons).
    rewrite Hs, Ht in Heq.
    apply Forall_cons in H1 as [[_ Hx] H1], H2 as [[_ Hy] H2].
    destruct (comma_free_prefix x y s t) as [-> Hst]; [done..|].
    f_equal. destruct r1 as [|x' r1], r2 as [|y' r2].
    + done.
    + rewrite Hs_nil, (Ht_cons y' r2) in Hst; done.
    + rewrite Ht_nil, (Hs_cons x' r1) in Hst; done.
    + rewrite (Hs_cons x' r1), (Ht_cons y' r2) in Hst by done.
      injection Hst as Hst. by apply IH.
Qed.

Lemma get_log (thread : string) (st : State) :
  log (get transport thread st).2
    = log st ++ [EHttp (bare GET ("threads/" +:+ thread))].
Proof. unfold_client. sent transport. Qed.

Lemma rename_log (thread name : string) (st : State) :
  log (rename transport thread name st).2
    = log st ++ [EHttp (bare PUT ("threads/" +:+ thread +:+ "/name"))].
Proof. unfold_client. answer transport; reflexivity. Qed.

Lemma peers_log (thread : option string) (st : State) :
  log (peers transport thread st).2
    = log st ++
      [EHttp (bare GET
         ("threads/" +:+ or_string thread "default" +:+ "/peers"))].
Proof. unfold_client. sent transport. Qed.

Lemma last_event_inj (l : list Event) (r r' : Request) :
  l ++ [EHttp r] = l ++ [EHttp r'] → r = r'.
Proof. intros Heq. apply app_inv_head in Heq. by injection Heq. Qed.

(** [get], [remove] and [rename] name the thread they are asked for in
    their request: calls for two thread ids issue the same request only when
    the ids are equal. *)
Theorem requests_name_their_thread (a b : string) (st : State) :
  (log (get transport a st).2 = log (get transport b st).2 → a = b)
  ∧ (log (remove transport a st).2 = log (remove transport b st).2 → a = b)
  ∧ (∀ name name',
     log (rename transport a name st).2 = log (rename transport b name' st).2 →
     a = b).
Proof.
  split; [|split].
  - rewrite !get_log. intros Heq%last_event_inj.
    apply (f_equal url) in Heq. simpl in Heq.
    by apply (inj (String.app "threads/")) in Heq.
  - rewrite !remove_log. intros Heq%last_event_inj.
    apply (f_equal url) in Heq. simpl in Heq.
    by apply (inj (String.app "threads/")) in Heq.
  - intros name name'. rewrite !rename_log. intros Heq%last_event_inj.
    apply (f_equal url) in Heq. simpl in Heq.
    apply (inj (String.app "threads/")) in Heq.
    by apply string_app_inj_r in Heq.
Qed.

(** The thread id is put into the path as it is, with no escaping: [get]
    asked for the id [t/peers] issues the very request [peers] issues for
    the thread [t]. *)
Theorem get_reaches_peers (t : string) (st : State) :
  t ≠ "" →
  log (get transport (t +:+ "/peers") st).2
    = log (peers transport (Some t) st).2.
Proof.
  intros Ht. rewrite get_log, peers_log. simpl.
  by rewrite (truthy_nonempty t Ht).
Qed.


End Properties.

(** * The client run against the sample daemon *)

Example getByKey_sample :
  (getByKey sample_transport "k2" sample_state).1
    = Ok (Some (sample_thread "t2" "photos" (Some "k2"))).
Proof. reflexivity. Qed.

Example getByName_sample :
  (getByName sample_transport "chat" sample_state).1
    = Ok [sample_thread "t1" "chat" (Some "k1");
          sample_thread "t3" "chat" (Some "k2")].
Proof. reflexivity. Qed.

Example removeByKey_sample :
  removeByKey sample_transport "k2" sample_state
    = (Ok true,
       {| world := [sample_thread "t1" "chat" (Some "k1");
                    sample_thread "t3" "chat" (Some "k2");
                    sample_thread "t4" "notes" None];
          log := [EHttp {| method := GET; url := "threads"; args := None;
                           opts := None; data := None |};
                  EHttp {| method := DELETE; url := "threads/t2";
                           args := None; opts := None; data := None |}] |}).
Proof. reflexivity. Qed.

Example remove_unknown_sample :
  (remove sample_transport "t9" sample_state).1 = Ok false.
Proof. reflexivity. Qed.

Example add_media_sample :
  log (add sample_transport sample_schemas_add sample_schemas_defaultByName
         "chat" (Some (SchemaString "media")) None (Some Open) (Some Shared)
         (Some ["P1"; "P2"]) sample_state).2
    = [ESchemasDefaultByName "media"; ESchemasAdd "media-schema";
       EHttp {| method := POST; url := "threads"; args := Some ["chat"];
                opts := Some {[ "schema" := "Qmmedia-schema"; "key" := "";
                                "type" := "open"; "sharing" := "shared";
                                "whitelist" := "P1,P2" ]};
                data := None |}].
Proof. reflexivity. Qed.

(** ** Instances of the conditional statements *)

Lemma add_resolves_schema_witness :
  (sample_schemas_add "inline" sample_world
     = (Ok {| hash := "Qminline" |}, sample_world)
   ∧ ∃ m, log (add sample_transport sample_schemas_add
                 sample_schemas_defaultByName "chat"
                 (Some (SchemaObject "inline")) None None None None
                 sample_state).2
            = [ESchemasAdd "inline";
               EHttp {| method := POST; url := "threads";
                        args := Some ["chat"]; opts := Some m;
                        data := None |}]
          ∧ m !! "schema" = Some "Qminline")
  ∧ ("media" ≠ ""
     ∧ sample_schemas_defaultByName "media" sample_world
         = (Ok (Some "media-schema"), sample_world)
     ∧ sample_schemas_add "media-schema" sample_world
         = (Ok {| hash := "Qmmedia-schema" |}, sample_world)
     ∧ ∃ m, log (add sample_transport sample_schemas_add
                   sample_schemas_defaultByName "chat"
                   (Some (SchemaString "media")) None None None None
                   sample_state).2
              = [ESchemasDefaultByName "media"; ESchemasAdd "media-schema";
                 EHttp {| method := POST; url := "threads";
                          args := Some ["chat"]; opts := Some m;
                          data := None |}]
            ∧ m !! "schema" = Some "Qmmedia-schema")
  ∧ (sample_schemas_defaultByName "QmZ" sample_world = (Ok None, sample_world)
     ∧ ∃ m, log (add sample_transport sample_schemas_add
                   sample_schemas_defaultByName "chat"
                   (Some (SchemaString "QmZ")) None None None None
                   sample_state).2
              = [ESchemasDefaultByName "QmZ";
                 EHttp {| method := POST; url := "threads";
                          args := Some ["chat"]; opts := Some m;
                          data := None |}]
            ∧ m !! "schema" = Some "QmZ").
Proof.
  destruct (add_resolves_schema sample_transport sample_schemas_add
              sample_schemas_defaultByName "chat" None None None None
              sample_state) as (Hobject & Hknown & Hunknown).
  split; [|split].
  - split; [reflexivity|].
    apply (Hobject "inline" {| hash := "Qminline" |} sample_world).
    reflexivity.
  - split; [discriminate|]. split; [reflexivity|]. split; [reflexivity|].
    apply (Hknown "media" "media-schema" {| hash := "Qmmedia-schema" |}
             sample_world sample_world);
      [discriminate|reflexivity|reflexivity].
  - split; [reflexivity|].
    apply (Hunknown "QmZ" sample_world). reflexivity.
Defined.

Lemma status_204_is_success_witness :
  (∃ b, (remove sample_transport "t9" sample_state).1 = Ok b
        ∧ (b = true ↔ 404 = 204))
  ∧ (∃ b, (rename sample_transport "t1" "talk" sample_state).1 = Ok b
          ∧ (b = true ↔ 204 = 204))
  ∧ (∃ b, (removeByKey sample_transport "k2" sample_state).1 = Ok b
          ∧ (b = true ↔ 204 = 204)).
Proof.
  destruct (status_204_is_success (Schema := string) sample_transport)
    as (Hremove & Hrename & HremoveByKey).
  split; [|split].
  - apply (Hremove "t9" sample_state
             {| status := 404; json := no_body |} sample_world).
    reflexivity.
  - apply (Hrename "t1" "talk" sample_state
             {| status := 204; json := no_body |} sample_world).
    reflexivity.
  - destruct (HremoveByKey "k2" sample_state
                {| status := 200;
                   json := Ok (JThreadList {| items := sample_world |}) |}
                sample_world {| items := sample_world |}
                eq_refl eq_refl) as [_ Hpresent].
    apply (Hpresent 1%nat (sample_thread "t2" "photos" (Some "k2"))
             {| status := 204; json := no_body |}
             [sample_thread "t1" "chat" (Some "k1");
              sample_thread "t3" "chat" (Some "k2");
              sample_thread "t4" "notes" None]).
    + split; [reflexivity|]. split; [reflexivity|].
      intros [|j] t' Hj Ht'; [|lia]. injection Ht' as <-. discriminate.
    + reflexivity.
Defined.

Lemma removeByKey_deletes_first_match_witness :
  (no_key "missing" sample_world
   ∧ removeByKey sample_transport "missing" sample_state
       = (Ok false,
          {| world := sample_world;
             log := [EHttp {| method := GET; url := "threads"; args := None;
                              opts := None; data := None |}] |}))
  ∧ (first_with_key "k2" sample_world 1
       (sample_thread "t2" "photos" (Some "k2"))
     ∧ log (removeByKey sample_transport "k2" sample_state).2
         = [EHttp {| method := GET; url := "threads"; args := None;
                     opts := None; data := None |};
            EHttp {| method := DELETE; url := "threads/t2"; args := None;
                     opts := None; data := None |}]).
Proof.
  assert (no_key "missing" sample_world) as Hnone.
  { intros t Ht. unfold sample_world in Ht.
    repeat (apply elem_of_cons in Ht as [->|Ht]; [discriminate|]).
    by apply not_elem_of_nil in Ht. }
  assert (first_with_key "k2" sample_world 1
            (sample_thread "t2" "photos" (Some "k2"))) as Hfirst.
  { split; [reflexivity|]. split; [reflexivity|].
    intros [|j] t' Hj Ht'; [|lia]. injection Ht' as <-. discriminate. }
  split; (split; [done|]).
  - destruct (removeByKey_deletes_first_match sample_transport "missing"
                sample_state
                {| status := 200;
                   json := Ok (JThreadList {| items := sample_world |}) |}
                sample_world {| items := sample_world |} eq_refl eq_refl)
      as [Habsent _].
    exact (Habsent Hnone).
  - destruct (removeByKey_deletes_first_match sample_transport "k2"
                sample_state
                {| status := 200;
                   json := Ok (JThreadList {| items := sample_world |}) |}
                sample_world {| items := sample_world |} eq_refl eq_refl)
      as [_ Hpresent].
    exact (Hpresent 1%nat (sample_thread "t2" "photos" (Some "k2")) Hfirst).
Defined.

Lemma getByKey_first_match_witness :
  sample_transport
      {| method := GET; url := "threads"; args := None; opts := None;
         data := None |} sample_world
    = (Ok {| status := 200;
             json := Ok (JThreadList {| items := sample_world |}) |},
       sample_world)
  ∧ ∃ found, (getByKey sample_transport "k2" sample_state).1 = Ok found ∧
      match found with
      | Some t => ∃ i, first_with_key "k2" sample_world i t
      | None => no_key "k2" sample_world
      end.
Proof.
  split; [reflexivity|].
  apply (getByKey_first_match sample_transport "k2" sample_state
           {| status := 200;
              json := Ok (JThreadList {| items := sample_world |}) |}
           sample_world {| items := sample_world |});
    reflexivity.
Defined.

Lemma getByName_all_matches_witness :
  sample_transport
      {| method := GET; url := "threads"; args := None; opts := None;
         data := None |} sample_world
    = (Ok {| status := 200;
             json := Ok (JThreadList {| items := sample_world |}) |},
       sample_world)
  ∧ ∃ found, (getByName sample_transport "chat" sample_state).1 = Ok found ∧
      found `sublist_of` sample_world ∧
      (∀ t, t ∈ found ↔ t ∈ sample_world ∧ thread_name t = "chat") ∧
      (∀ l, l `sublist_of` sample_world →
            Forall (λ t, thread_name t = "chat") l → l `sublist_of` found) ∧
      ((∀ t, t ∈ sample_world → thread_name t ≠ "chat") → found = []).
Proof.
  split; [reflexivity|].
  apply (getByName_all_matches sample_transport "chat" sample_state
           {| status := 200;
              json := Ok (JThreadList {| items := sample_world |}) |}
           sample_world {| items := sample_world |});
    reflexivity.
Defined.

Lemma peers_default_thread_witness :
  log (peers sample_transport (Some "") sample_state).2
    = [EHttp {| method := GET; url := "threads/default/peers"; args := None;
                opts := None; data := None |}]
  ∧ log (peers sample_transport None sample_state).2
    = [EHttp {| method := GET; url := "threads/default/peers"; args := None;
                opts := None; data := None |}]
  ∧ ("t1" ≠ ""
     ∧ log (peers sample_transport (Some "t1") sample_state).2
       = [EHttp {| method := GET; url := "threads/t1/peers"; args := None;
                   opts := None; data := None |}]).
Proof.
  split; [|split].
  - destruct (peers_default_thread sample_transport (Some "") sample_state)
      as [Hfalsy _].
    apply Hfalsy. right. reflexivity.
  - destruct (peers_default_thread sample_transport None sample_state)
      as [Hfalsy _].
    apply Hfalsy. left. reflexivity.
  - split; [discriminate|].
    destruct (peers_default_thread sample_transport (Some "t1") sample_state)
      as [_ Htruthy].
    apply (Htruthy "t1"); [reflexivity|discriminate].
Defined.

(** ** Instances of the further conditional statements *)


Lemma add_schema_failure_aborts_witness :
  add sample_transport rejecting_schemas_add sample_schemas_defaultByName
      "chat" (Some (SchemaObject "inline")) None None None None sample_state
    = (Err (TransportError "schema rejected"),
       {| world := sample_world; log := [ESchemasAdd "inline"] |})
  ∧ add sample_transport sample_schemas_add failing_schemas_defaultByName
      "chat" (Some (SchemaString "media")) None None None None sample_state
    = (Err (TransportError "no defaults"),
       {| world := sample_world; log := [ESchemasDefaultByName "media"] |})
  ∧ add sample_transport rejecting_schemas_add sample_schemas_defaultByName
      "chat" (Some (SchemaString "media")) None None None None sample_state
    = (Err (TransportError "schema rejected"),
       {| world := sample_world;
          log := [ESchemasDefaultByName "media";
                  ESchemasAdd "media-schema"] |}).
Proof.
  split; [|split].
  - destruct (add_schema_failure_aborts sample_transport
                rejecting_schemas_add sample_schemas_defaultByName
                "chat" None None None None sample_state
                (TransportError "schema rejected")) as (Hobject & _ & _).
    apply (Hobject "inline" sample_world). reflexivity.
  - destruct (add_schema_failure_aborts sample_transport
                sample_schemas_add failing_schemas_defaultByName
                "chat" None None None None sample_state
                (TransportError "no defaults")) as (_ & Hdefault & _).
    apply (Hdefault "media" sample_world); [discriminate|reflexivity].
  - destruct (add_schema_failure_aborts sample_transport
                rejecting_schemas_add sample_schemas_defaultByName
                "chat" None None None None sample_state
                (TransportError "schema rejected")) as (_ & _ & Hknown).
    apply (Hknown "media" "media-schema" sample_world sample_world);
      [discriminate|reflexivity|reflexivity].
Defined.

Lemma removeByKey_failures_witness :
  removeByKey offline_transport "k2" sample_state
    = (Err (TransportError "connection refused"),
       {| world := sample_world;
          log := [EHttp {| method := GET; url := "threads"; args := None;
                           opts := None; data := None |}] |})
  ∧ removeByKey garbled_transport "k2" sample_state
    = (Err (BodyError "unexpected token"),
       {| world := sample_world;
          log := [EHttp {| method := GET; url := "threads"; args := None;
                           opts := None; data := None |}] |})
  ∧ removeByKey readonly_transport "k2" sample_state
    = (Err (TransportError "read only"),
       {| world := sample_world;
          log := [EHttp {| method := GET; url := "threads"; args := None;
                           opts := None; data := None |};
                  EHttp {| method := DELETE; url := "threads/t2";
                           args := None; opts := None; data := None |}] |}).
Proof.
  split; [|split].
  - destruct (removeByKey_failures (Schema := string) offline_transport "k2"
                sample_state (TransportError "connection refused"))
      as (Hget & _ & _).
    apply (Hget sample_world). reflexivity.
  - destruct (removeByKey_failures (Schema := string) garbled_transport "k2"
                sample_state (BodyError "unexpected token"))
      as (_ & Hbody & _).
    apply (Hbody {| status := 200;
                    json := Err (BodyError "unexpected token") |}
             sample_world); reflexivity.
  - destruct (removeByKey_failures (Schema := string) readonly_transport "k2"
                sample_state (TransportError "read only"))
      as (_ & _ & Hdelete).
    apply (Hdelete
             {| status := 200;
                json := Ok (JThreadList {| items := sample_world |}) |}
             sample_world {| items := sample_world |} 1%nat
             (sample_thread "t2" "photos" (Some "k2")) sample_world);
      [reflexivity|reflexivity| |reflexivity].
    split; [reflexivity|]. split; [reflexivity|].
    intros [|j] t' Hj Ht'; [|lia]. injection Ht' as <-. discriminate.
Defined.

Lemma whitelist_join_injective_witness :
  plain_addresses ["P1"; "P2"] ∧ join "," ["P1"; "P2"] = "P1,P2"
  ∧ ["P1"; "P2"] = ["P1"; "P2"].
Proof.
  assert (plain_addresses ["P1"; "P2"]) as Hplain.
  { repeat constructor; discriminate. }
  split; [exact Hplain|]. split; [reflexivity|].
  apply (whitelist_join_injective ["P1"; "P2"] ["P1"; "P2"] Hplain Hplain).
  reflexivity.
Defined.

Lemma requests_name_their_thread_witness :
  "t1" = "t1" ∧ "t2" = "t2" ∧ "t3" = "t3".
Proof.
  split; [|split].
  - destruct (requests_name_their_thread sample_transport "t1" "t1"
                sample_state) as (Hget & _ & _).
    apply Hget. reflexivity.
  - destruct (requests_name_their_thread sample_transport "t2" "t2"
                sample_state) as (_ & Hremove & _).
    apply Hremove. reflexivity.
  - destruct (requests_name_their_thread sample_transport "t3" "t3"
                sample_state) as (_ & _ & Hrename).
    apply (Hrename "talk" "notes"). reflexivity.
Defined.

Lemma get_reaches_peers_witness :
  "t1" ≠ ""
  ∧ log (get sample_transport "t1/peers" sample_state).2
    = log (peers sample_transport (Some "t1") sample_state).2.
Proof.
  split; [discriminate|].
  apply (get_reaches_peers sample_transport "t1" sample_state). discriminate.
Defined.

